(** * csv-connector server methods: job items and mapping templates

    A shallow embedding of the Meteor methods of
    [imports/plugins/included/csv-connector/server/methods.js]: the two
    job item methods [csvConnector/saveJobItem] and
    [csvConnector/removeJobItem], and the five credential methods that
    save and test the S3 and SFTP settings, together with the small part
    of JavaScript, of [meteor/check], of EJSON and of the Mongo
    collections they rely on. *)

From stdpp Require Import gmap strings.

Set Warnings "-register-all".

(** ** JavaScript values *)

(** The values a method can receive over DDP (EJSON) and store in a
    document.  Numbers are kept as integers plus [NaN]: the methods only
    ever test a number for truthiness, and every other number behaves
    there like a non-zero integer. *)
Inductive jsval : Type :=
  | JUndefined
  | JNull
  | JBool (b : bool)
  | JNum (n : Z)
  | JNaN
  | JStr (s : string)
  | JDate (t : Z)
  | JArr (l : list jsval)
  | JObj (o : gmap string jsval).

(** A plain object: property names to values. *)
Abbreviation obj := (gmap string jsval).

(** [o.k] on an object: [undefined] when the property is absent. *)
Definition prop (o : obj) (k : string) : jsval :=
  default JUndefined (o !! k).

(** [v.k] on any value that is neither [undefined] nor [null]; none of
    the property names read by the methods exists on a primitive, a date
    or an array. *)
Definition get (v : jsval) (k : string) : jsval :=
  match v with
  | JObj o => prop o k
  | _ => JUndefined
  end.

(** ToBoolean, as applied by [&&] and [if]. *)
Definition truthy (v : jsval) : bool :=
  match v with
  | JUndefined | JNull | JNaN => false
  | JBool b => b
  | JNum n => negb (n =? 0)%Z
  | JStr s => negb (String.eqb s "")
  | JDate _ | JArr _ | JObj _ => true
  end.

(** [v === "s"] for a string literal [s]. *)
Definition strict_eq_str (v : jsval) (s : string) : bool :=
  match v with
  | JStr t => String.eqb t s
  | _ => false
  end.

(** [typeof v === "string"], the test behind [check(v, String)]. *)
Definition is_string (v : jsval) : bool :=
  match v with
  | JStr _ => true
  | _ => false
  end.

(** The test behind [check(v, Object)]: [typeof v === "object"], not
    [null], and a plain object (arrays and dates are refused). *)
Definition is_plain_object (v : jsval) : bool :=
  match v with
  | JObj _ => true
  | _ => false
  end.

(** ** Exceptions *)

Inductive exn : Type :=
  | MatchError                          (* Match.Error thrown by check() *)
  | MeteorError (error reason : string) (* new Meteor.Error(error, reason) *)
  | TypeError                           (* destructuring undefined or null *)
  | MongoError.                         (* duplicate key on insert *)

(** ** The database and what the runtime supplies *)

(** The two collections imported from [../lib/collections], each a keyed
    store of documents. *)
Record db : Type := mkDb {
  JobItems : gmap string obj;
  Mappings : gmap string obj
}.

(** What a method invocation reads from its surroundings. *)
Record env : Type := mkEnv {
  getShopId : jsval;        (* Reaction.getShopId() *)
  userId : jsval;           (* Meteor.userId() *)
  now : Z;                  (* new Date() *)
  jobItemRandomId : string; (* the _id generated for JobItems.insert *)
  mappingRandomId : string  (* the _id generated for Mappings.insert *)
}.

(** ** A state and exception monad

    A thrown exception keeps the writes made before it: nothing is
    rolled back. *)
Definition M (A : Type) : Type := db → (exn + A) * db.

Definition ret {A} (a : A) : M A := λ st, (inr a, st).

Definition throw {A} (x : exn) : M A := λ st, (inl x, st).

Definition bind {A B} (c : M A) (k : A → M B) : M B :=
  λ st, match c st with
        | (inr a, st') => k a st'
        | (inl x, st') => (inl x, st')
        end.

#[global] Instance M_ret : MRet M := @ret.
#[global] Instance M_bind : MBind M := λ A B k c, bind c k.

(** ** meteor/check *)

Definition check_Object (v : jsval) : M unit :=
  if is_plain_object v then ret () else throw MatchError.

Definition check_String (v : jsval) : M unit :=
  if is_string v then ret () else throw MatchError.

(** [const { k } = v]: a [TypeError] when [v] is [undefined] or [null]. *)
Definition destructure (v : jsval) (k : string) : M jsval :=
  match v with
  | JUndefined | JNull => throw TypeError
  | _ => ret (get v k)
  end.

(** ** Collections *)

(** Modelled from the spec: the collections module [../lib/collections]
    that defines [JobItems] and [Mappings] is not among the sources.  The
    spec gives the two repositories as plain keyed stores,
    "JobRepository: insert(JobItem) -> id; findOne(id) -> JobItem | none;
    remove(id) -> void" and "MappingRepository: insert(MappingTemplate)
    -> id; update(id, mapping) -> void".  [insert] stores the document
    under the generated identifier, which it also records in the
    document's [_id] field, and fails on an identifier already in use. *)
Definition Collection_insert (newId : string) (doc : obj) (c : gmap string obj)
  : exn + gmap string obj :=
  match c !! newId with
  | Some _ => inl MongoError
  | None => inr (<[newId := <["_id" := JStr newId]> doc]> c)
  end.

(** Modelled from the spec: [JobItems.insert(doc)], see
    [Collection_insert]. *)
Definition JobItems_insert (e : env) (doc : obj) : M string :=
  λ st, match Collection_insert (jobItemRandomId e) doc (JobItems st) with
        | inr c => (inr (jobItemRandomId e), mkDb c (Mappings st))
        | inl x => (inl x, st)
        end.

(** Modelled from the spec: [Mappings.insert(doc)], see
    [Collection_insert]. *)
Definition Mappings_insert (e : env) (doc : obj) : M string :=
  λ st, match Collection_insert (mappingRandomId e) doc (Mappings st) with
        | inr c => (inr (mappingRandomId e), mkDb (JobItems st) c)
        | inl x => (inl x, st)
        end.

(** Stored identifiers are strings: a selector [{ _id: sel }] picks the
    document stored under [sel] when [sel] is a string, and none
    otherwise. *)
Definition select_id (sel : jsval) (c : gmap string obj) : option obj :=
  match sel with
  | JStr k => c !! k
  | _ => None
  end.

(** Modelled from the spec: [JobItems.findOne({ _id: sel })], the stored
    document or [undefined]. *)
Definition JobItems_findOne (sel : jsval) : M jsval :=
  λ st, (inr (from_option JObj JUndefined (select_id sel (JobItems st))), st).

(** Modelled from the spec: [JobItems.remove({ _id: sel })]. *)
Definition JobItems_remove (sel : jsval) : M unit :=
  λ st, match sel with
        | JStr k => (inr (), mkDb (delete k (JobItems st)) (Mappings st))
        | _ => (inr (), st)
        end.

(** Modelled from the spec: the effect of [update({ _id: sel }, { $set:
    { mapping: v } })] on a collection: the document selected by [sel],
    if there is one, has its [mapping] field set to [v]; nothing is ever
    inserted. *)
Definition Collection_set_mapping (sel v : jsval) (c : gmap string obj)
  : gmap string obj :=
  match sel with
  | JStr k => alter (insert "mapping" v) k c
  | _ => c
  end.

(** Modelled from the spec: [Mappings.update({ _id: sel }, { $set: {
    mapping: v } })], see [Collection_set_mapping]. *)
Definition Mappings_update_mapping (sel v : jsval) : M unit :=
  λ st, (inr (), mkDb (JobItems st) (Collection_set_mapping sel v (Mappings st))).

(** ** The methods *)

(** The document handed to [JobItems.insert] by [saveJobItem]. *)
Definition jobItemDoc (e : env) (values : jsval) : obj :=
  list_to_map [
    ("collection", get values "collection");
    ("fileSource", get values "fileSource");
    ("hasHeader", get values "hasHeader");
    ("jobSubType", get values "jobSubType");
    ("jobType", get values "jobType");
    ("mapping", get values "mappingByUser");
    ("mappingId", get values "mappingId");
    ("name", get values "name");
    ("shopId", getShopId e);
    ("status", JStr "pending");
    ("uploadedAt", JDate (now e));
    ("userId", userId e)
  ].

(** The document handed to [Mappings.insert] by [saveJobItem]. *)
Definition mappingDoc (e : env) (values : jsval) : obj :=
  list_to_map [
    ("shopId", getShopId e);
    ("name", get values "newMappingName");
    ("collection", get values "collection");
    ("mapping", get values "mappingByUser")
  ].

(** The test of the first [if] of [saveJobItem]. *)
Definition savesNewMapping (values : jsval) : bool :=
  (strict_eq_str (get values "mappingId") "create"
     && truthy (get values "shouldSaveToNewMapping"))
  || (negb (strict_eq_str (get values "mappingId") "create")
        && strict_eq_str (get values "saveMappingAction") "create").

(** The test of the [else if] of [saveJobItem]. *)
Definition updatesMapping (values : jsval) : bool :=
  negb (strict_eq_str (get values "mappingId") "create")
  && strict_eq_str (get values "saveMappingAction") "update".

(** [csvConnector/saveJobItem]. *)
Definition saveJobItem (e : env) (values : jsval) : M string :=
  check_Object values ;;
  jobItemId ← JobItems_insert e (jobItemDoc e values) ;
  (if savesNewMapping values then
     Mappings_insert e (mappingDoc e values) ;; mret ()
   else if updatesMapping values then
     Mappings_update_mapping (get values "mappingId") (get values "mappingByUser")
   else mret ()) ;;
  mret jobItemId.

(** The error [removeJobItem] raises on a job item in progress. *)
Definition inProgressError : exn :=
  MeteorError "invalid" "Job item is in progress and can't be deleted.".

(** [csvConnector/removeJobItem]. *)
Definition removeJobItem (jobItemId : jsval) : M bool :=
  check_String jobItemId ;;
  jobItem ← JobItems_findOne jobItemId ;
  status ← destructure jobItem "status" ;
  (if strict_eq_str status "inProgress" then throw inProgressError
   else mret ()) ;;
  JobItems_remove jobItemId ;;
  mret true.

(** ** What the methods leave behind *)

(** The job item as stored: the document with its [_id]. *)
Definition storedJobItem (e : env) (values : jsval) : obj :=
  <["_id" := JStr (jobItemRandomId e)]> (jobItemDoc e values).

(** The mapping template as stored: the document with its [_id]. *)
Definition storedMapping (e : env) (values : jsval) : obj :=
  <["_id" := JStr (mappingRandomId e)]> (mappingDoc e values).

(** The database once the job item is in. *)
Definition withJobItem (e : env) (values : jsval) (st : db) : db :=
  mkDb (<[jobItemRandomId e := storedJobItem e values]> (JobItems st)) (Mappings st).

(** ** Sample data *)

Definition env0 : env :=
  mkEnv (JStr "shop1") (JStr "user1") 1546300800000 "job1" "map1".

Definition db0 : db := mkDb ∅ ∅.

Definition m1 : obj :=
  list_to_map [("_id", JStr "m1"); ("name", JStr "products v1");
               ("mapping", JObj {[ "sku" := JStr "SKU" ]})].

Definition jobInProgress : obj :=
  list_to_map [("_id", JStr "j1"); ("status", JStr "inProgress")].

Definition jobPending : obj :=
  list_to_map [("_id", JStr "j2"); ("status", JStr "pending")].

Definition db1 : db :=
  mkDb {[ "j1" := jobInProgress; "j2" := jobPending ]} {[ "m1" := m1 ]}.

Definition objA : obj :=
  list_to_map [("collection", JStr "products"); ("mappingId", JStr "create");
               ("shouldSaveToNewMapping", JBool false);
               ("mappingByUser", JObj {[ "sku" := JStr "SKU" ]})].

Definition valuesA : jsval := JObj objA.

Definition objB : obj :=
  list_to_map [("mappingId", JStr "m1"); ("saveMappingAction", JStr "update");
               ("mappingByUser", JObj {[ "sku" := JStr "SKU2" ]})].

Definition valuesB : jsval := JObj objB.

Definition objC : obj :=
  list_to_map [("collection", JStr "products"); ("mappingId", JStr "m1");
               ("saveMappingAction", JStr "create");
               ("newMappingName", JStr "products v2");
               ("mappingByUser", JObj {[ "sku" := JStr "SKU2" ]})].

Definition valuesC : jsval := JObj objC.

(** A session with no user logged in and no shop resolved. *)
Definition envAnonymous : env :=
  mkEnv JUndefined JNull 1546300800000 "job1" "map1".

(** ** The credential methods *)

(** [typeof v === "number"], the test behind [check(v, Number)]; [NaN]
    is a number. *)
Definition is_number (v : jsval) : bool :=
  match v with
  | JNum _ | JNaN => true
  | _ => false
  end.

(** [EJSON.parse(EJSON.stringify(v))]: a deep copy in which a property
    whose value is [undefined] is dropped and an [undefined] array
    element comes back as [null]; every other value survives the trip. *)
Fixpoint EJSON_roundtrip (v : jsval) : jsval :=
  match v with
  | JArr l =>
      JArr (map (λ x, match x with
                      | JUndefined => JNull
                      | _ => EJSON_roundtrip x
                      end) l)
  | JObj o =>
      JObj (omap (λ x, match x with
                       | JUndefined => None
                       | _ => Some (EJSON_roundtrip x)
                       end) o)
  | _ => v
  end.

(** How a promise ends, if it does.  A rejection carries either an
    exception raised by the method itself or the error value handed
    over by the remote service. *)
Inductive promise : Type :=
  | Pending
  | Resolved (v : jsval)
  | Rejected (r : exn + jsval).

(** What the credential methods reach outside the database: the
    permission test of [Reaction], the two S3 requests (credentials,
    bucket, key and, for an upload, the body; the answer is the pair
    [(error, result)] handed to the callback, if it is ever called), the
    SFTP connection attempt on host, port, user name and password, and
    the string a template literal makes of a value. *)
Record world : Type := mkWorld {
  hasPermission : string → bool;
  S3_upload : jsval → jsval → jsval → string → string → option (jsval * jsval);
  S3_getObject : jsval → jsval → jsval → string → option (jsval * jsval);
  sftp_connect : jsval → string → jsval → jsval → promise;
  toString : jsval → string
}.

(** State and exceptions over the [Packages] collection, whose
    documents are kept in the order in which a query meets them. *)
Definition P (A : Type) : Type := list obj → (exn + A) * list obj.

#[global] Instance P_ret : MRet P := λ A a pkgs, (inr a, pkgs).
#[global] Instance P_bind : MBind P :=
  λ A B k c pkgs, match c pkgs with
                  | (inr a, pkgs') => k a pkgs'
                  | (inl x, pkgs') => (inl x, pkgs')
                  end.

Definition P_throw {A} (x : exn) : P A := λ pkgs, (inl x, pkgs).

(** [check(v, T)] once the test behind the pattern [T] is known. *)
Definition P_check (passes : bool) : P unit :=
  if passes then mret () else P_throw MatchError.

(** Whether the selector [{ name: name }] matches a document: its [name]
    is that string, or an array with that string among its elements. *)
Definition name_matches (name : string) (d : obj) : bool :=
  match prop d "name" with
  | JStr s => String.eqb s name
  | JArr l => existsb (λ x, strict_eq_str x name) l
  | _ => false
  end.

(** Modelled from the spec: the module [/lib/collections] that defines
    [Packages] is not among the sources; the spec has it as the
    "CredentialStore", a "keyed configuration store holding named
    settings blobs".  [Packages.findOne({ name: name })] is the first
    matching document, or [undefined]. *)
Definition Packages_findOne (name : string) (pkgs : list obj) : jsval :=
  from_option JObj JUndefined (List.find (name_matches name) pkgs).

(** Modelled from the spec: the effect of [update({ name: name }, { $set:
    { settings: v } })] on a collection: the first matching document has
    its [settings] field set to [v]; the count of documents affected
    comes with it. *)
Fixpoint Collection_set_settings (name : string) (v : jsval) (pkgs : list obj)
  : Z * list obj :=
  match pkgs with
  | [] => (0%Z, [])
  | d :: rest =>
      if name_matches name d then (1%Z, <["settings" := v]> d :: rest)
      else let r := Collection_set_settings name v rest in (fst r, d :: snd r)
  end.

(** Modelled from the spec: [Packages.update({ name: name }, { $set: {
    settings: v } })], see [Collection_set_settings]. *)
Definition Packages_update_settings (name : string) (v : jsval) : P Z :=
  λ pkgs, let r := Collection_set_settings name v pkgs in (inr (fst r), snd r).

(** The error of a caller without the "core" permission. *)
Definition accessDenied : exn := MeteorError "access-denied" "Access Denied".

(** [csvConnector/updateS3Settings]. *)
Definition updateS3Settings (w : world) (values : jsval) : P Z :=
  P_check (is_plain_object values) ;;
  P_check (is_string (get values "accessKey")) ;;
  P_check (is_string (get values "secretAccessKey")) ;;
  P_check (is_string (get values "bucket")) ;;
  (if negb (hasPermission w "core") then P_throw accessDenied else mret ()) ;;
  let update := EJSON_roundtrip values in
  Packages_update_settings "connector-settings-aws-s3" update.

(** [csvConnector/updateSFTPSettings]. *)
Definition updateSFTPSettings (w : world) (values : jsval) : P Z :=
  P_check (is_plain_object values) ;;
  P_check (is_string (get values "ipAddress")) ;;
  P_check (is_number (get values "port")) ;;
  P_check (is_string (get values "username")) ;;
  P_check (is_string (get values "password")) ;;
  (if negb (hasPermission w "core") then P_throw accessDenied else mret ()) ;;
  let update := EJSON_roundtrip values in
  Packages_update_settings "connector-settings-sftp" update.

(** [const { settings: { ... } } = pkg || {}]: the value of [settings],
    from which the inner pattern then reads; a [TypeError] when it is
    [undefined] or [null]. *)
Definition destructure_settings (pkg : jsval) : exn + jsval :=
  match get (if truthy pkg then pkg else JObj ∅) "settings" with
  | JUndefined | JNull => inl TypeError
  | settings => inr settings
  end.

(** [csvConnector/s3TestForExport]. *)
Definition s3TestForExport (w : world) (pkgs : list obj) : exn + promise :=
  if negb (hasPermission w "core") then inl accessDenied
  else
    let pkg := Packages_findOne "connector-settings-aws-s3" pkgs in
    match destructure_settings pkg with
    | inl x => inl x
    | inr settings =>
        inr match S3_upload w (get settings "accessKey")
                    (get settings "secretAccessKey") (get settings "bucket")
                    "ReactionCSVExport--TestOnly.txt"
                    "This is just a sample CSV export file from Reaction." with
            | None => Pending
            | Some (error, result) =>
                if truthy result then Resolved (JBool true)
                else Rejected (inr error)
            end
    end.

(** [csvConnector/s3TestForImport]. *)
Definition s3TestForImport (w : world) (pkgs : list obj) : exn + promise :=
  if negb (hasPermission w "core") then inl accessDenied
  else
    let pkg := Packages_findOne "connector-settings-aws-s3" pkgs in
    match destructure_settings pkg with
    | inl x => inl x
    | inr settings =>
        inr match S3_getObject w (get settings "accessKey")
                    (get settings "secretAccessKey") (get settings "bucket")
                    "test.txt" with
            | None => Pending
            | Some (error, result) =>
                if truthy result
                   || (truthy error && strict_eq_str (get error "code") "NoSuchKey")
                then Resolved (JBool true)
                else Rejected (inr error)
            end
    end.

(** [csvConnector/sftpTestForImportAndExport], an [async] method: what
    it throws comes out as a rejection. *)
Definition sftpTestForImportAndExport (w : world) (pkgs : list obj) : promise :=
  if negb (hasPermission w "core") then Rejected (inl accessDenied)
  else
    let pkg := Packages_findOne "connector-settings-sftp" pkgs in
    match destructure_settings pkg with
    | inl x => Rejected (inl x)
    | inr settings =>
        match sftp_connect w (get settings "ipAddress")
                (toString w (get settings "port"))
                (get settings "username") (get settings "password") with
        | Resolved _ => Resolved (JBool true)
        | Rejected error => Rejected error
        | Pending => Pending
        end
    end.

(** The four [check]s of [updateS3Settings], taken together. *)
Definition validS3Settings (values : jsval) : bool :=
  is_plain_object values
  && is_string (get values "accessKey")
  && is_string (get values "secretAccessKey")
  && is_string (get values "bucket").

(** The five [check]s of [updateSFTPSettings], taken together. *)
Definition validSFTPSettings (values : jsval) : bool :=
  is_plain_object values
  && is_string (get values "ipAddress")
  && is_number (get values "port")
  && is_string (get values "username")
  && is_string (get values "password").

(** [undefined] or [null]. *)
Definition nullish (v : jsval) : bool :=
  match v with
  | JUndefined | JNull => true
  | _ => false
  end.

(** ** Sample data for the credential methods *)

Definition noSuchKey : jsval := JObj {[ "code" := JStr "NoSuchKey" ]}.

(** A world in which the caller may do everything, an upload goes
    through and the object asked for does not exist. *)
Definition world0 : world :=
  mkWorld (λ _, true)
          (λ _ _ _ _ _, Some (JNull, JObj {[ "Key" := JStr "k" ]}))
          (λ _ _ _ _, Some (noSuchKey, JNull))
          (λ _ _ _ _, Resolved JUndefined)
          (λ _, "22").

(** The same world for a caller without permissions. *)
Definition worldDenied : world :=
  mkWorld (λ _, false) (S3_upload world0) (S3_getObject world0)
          (sftp_connect world0) (toString world0).

Definition pkgS3 : obj :=
  list_to_map [("_id", JStr "p2"); ("name", JStr "connector-settings-aws-s3");
               ("settings", JObj {[ "bucket" := JStr "old" ]})].

Definition pkgOther : obj :=
  list_to_map [("_id", JStr "p1"); ("name", JStr "reaction-email")].

Definition pkgSFTP : obj :=
  list_to_map [("_id", JStr "p3"); ("name", JStr "connector-settings-sftp")].

Definition pkgs0 : list obj := [pkgOther; pkgS3].

Definition objS3 : obj :=
  list_to_map [("accessKey", JStr "AK"); ("secretAccessKey", JStr "SK");
               ("bucket", JStr "csv")].

Definition objSFTP : obj :=
  list_to_map [("ipAddress", JStr "10.0.0.1"); ("port", JNum 22);
               ("username", JStr "u"); ("password", JStr "p")].

(** ** Basic facts about values *)

Lemma strict_eq_str_true (v : jsval) (s : string) :
  strict_eq_str v s = true ↔ v = JStr s.
Proof.
  destruct v; simpl; try (split; [discriminate | congruence]).
  rewrite String.eqb_eq. split; congruence.
Qed.

Lemma strict_eq_str_false (v : jsval) (s : string) :
  strict_eq_str v s = false ↔ v ≠ JStr s.
Proof.
  rewrite <- strict_eq_str_true. destruct (strict_eq_str v s); split; congruence.
Qed.

Lemma truthy_bool (b : bool) : truthy (JBool b) = b.
Proof. reflexivity. Qed.

(** Setting a property leaves every other property as it was. *)
Lemma get_insert_ne (o : obj) (k k' : string) (v : jsval) :
  k ≠ k' → get (JObj (<[k := v]> o)) k' = get (JObj o) k'.
Proof. intros H. simpl. unfold prop. by rewrite lookup_insert_ne. Qed.

(** Only an object has any of the properties the methods read. *)
Lemma get_not_object (values : jsval) (k : string) :
  is_plain_object values = false → get values k = JUndefined.
Proof. by destruct values. Qed.

Lemma get_string_object (values : jsval) (k s : string) :
  get values k = JStr s → ∃ o : obj, values = JObj o.
Proof. destruct values; try discriminate. eauto. Qed.

(** ** [removeJobItem], case by case *)

Lemma removeJobItem_not_string (v : jsval) (st : db) :
  is_string v = false → removeJobItem v st = (inl MatchError, st).
Proof.
  intros H. unfold removeJobItem, mbind, M_bind, bind, check_String.
  by rewrite H.
Qed.

Lemma removeJobItem_absent (id : string) (st : db) :
  JobItems st !! id = None → removeJobItem (JStr id) st = (inl TypeError, st).
Proof.
  intros H. unfold removeJobItem, mbind, M_bind, bind; simpl.
  unfold JobItems_findOne; simpl. by rewrite H.
Qed.

Lemma removeJobItem_present (id : string) (j : obj) (st : db) :
  JobItems st !! id = Some j →
  removeJobItem (JStr id) st =
    if strict_eq_str (prop j "status") "inProgress"
    then (inl inProgressError, st)
    else (inr true, mkDb (delete id (JobItems st)) (Mappings st)).
Proof.
  intros H. unfold removeJobItem, mbind, M_bind, bind; simpl.
  unfold JobItems_findOne; simpl. rewrite H; simpl.
  by destruct (strict_eq_str (prop j "status") "inProgress").
Qed.

(** ** [saveJobItem], case by case *)

Lemma saveJobItem_not_object (e : env) (values : jsval) (st : db) :
  is_plain_object values = false →
  saveJobItem e values st = (inl MatchError, st).
Proof.
  intros H. unfold saveJobItem, mbind, M_bind, bind, check_Object.
  by rewrite H.
Qed.

Lemma saveJobItem_duplicate_job (e : env) (o : obj) (st : db) :
  is_Some (JobItems st !! jobItemRandomId e) →
  saveJobItem e (JObj o) st = (inl MongoError, st).
Proof.
  intros [j H]. unfold saveJobItem, mbind, M_bind, bind; simpl.
  unfold JobItems_insert, Collection_insert. by rewrite H.
Qed.

Lemma saveJobItem_insert_branch (e : env) (o : obj) (st : db) :
  JobItems st !! jobItemRandomId e = None →
  savesNewMapping (JObj o) = true →
  saveJobItem e (JObj o) st =
    match Mappings st !! mappingRandomId e with
    | Some _ => (inl MongoError, withJobItem e (JObj o) st)
    | None =>
        (inr (jobItemRandomId e),
         mkDb (JobItems (withJobItem e (JObj o) st))
              (<[mappingRandomId e := storedMapping e (JObj o)]> (Mappings st)))
    end.
Proof.
  intros Hj Hc. unfold saveJobItem, mbind, M_bind, bind; simpl.
  unfold JobItems_insert, Collection_insert. rewrite Hj, Hc; simpl.
  unfold Mappings_insert, Collection_insert; simpl.
  by destruct (Mappings st !! mappingRandomId e).
Qed.

Lemma saveJobItem_update_branch (e : env) (o : obj) (st : db) :
  JobItems st !! jobItemRandomId e = None →
  savesNewMapping (JObj o) = false →
  updatesMapping (JObj o) = true →
  saveJobItem e (JObj o) st =
    (inr (jobItemRandomId e),
     mkDb (JobItems (withJobItem e (JObj o) st))
          (Collection_set_mapping (prop o "mappingId") (prop o "mappingByUser")
             (Mappings st))).
Proof.
  intros Hj Hc Hu. unfold saveJobItem, mbind, M_bind, bind; simpl.
  unfold JobItems_insert, Collection_insert. by rewrite Hj, Hc, Hu.
Qed.

Lemma saveJobItem_none_branch (e : env) (o : obj) (st : db) :
  JobItems st !! jobItemRandomId e = None →
  savesNewMapping (JObj o) = false →
  updatesMapping (JObj o) = false →
  saveJobItem e (JObj o) st = (inr (jobItemRandomId e), withJobItem e (JObj o) st).
Proof.
  intros Hj Hc Hu. unfold saveJobItem, mbind, M_bind, bind; simpl.
  unfold JobItems_insert, Collection_insert. by rewrite Hj, Hc, Hu.
Qed.

(** A call of [saveJobItem] that returns has inserted the job item under
    the identifier it returns, and that identifier was free. *)
Lemma saveJobItem_returns (e : env) (values : jsval) (id : string) (st st' : db) :
  saveJobItem e values st = (inr id, st') →
  is_plain_object values = true
  ∧ id = jobItemRandomId e
  ∧ JobItems st !! id = None
  ∧ JobItems st' = <[id := storedJobItem e values]> (JobItems st).
Proof.
  intros H.
  destruct (is_plain_object values) eqn:Hv;
    [| by rewrite saveJobItem_not_object in H].
  destruct values as [| | | | | | | |o]; try discriminate.
  destruct (JobItems st !! jobItemRandomId e) as [j|] eqn:Hj;
    [by rewrite saveJobItem_duplicate_job in H |].
  destruct (savesNewMapping (JObj o)) eqn:Hc.
  - rewrite saveJobItem_insert_branch in H by done.
    destruct (Mappings st !! mappingRandomId e); [done |].
    by simplify_eq.
  - destruct (updatesMapping (JObj o)) eqn:Hu.
    + rewrite saveJobItem_update_branch in H by done. by simplify_eq.
    + rewrite saveJobItem_none_branch in H by done. by simplify_eq.
Qed.

(** ** Removing a job item *)

(** C1: on an identifier under which no job item is stored,
    [removeJobItem] deletes nothing, but what it raises is the
    [TypeError] of destructuring [undefined], not a [Meteor.Error] that
    names the missing item. *)
Theorem removeJobItem_missing_id (id : string) (st : db) :
  JobItems st !! id = None →
  removeJobItem (JStr id) st = (inl TypeError, st)
  ∧ ∀ error reason, fst (removeJobItem (JStr id) st) ≠ inl (MeteorError error reason).
Proof.
  intros H. rewrite removeJobItem_absent by done. by split.
Qed.

Lemma removeJobItem_missing_id_witness :
  JobItems db1 !! "j3" = None
  ∧ removeJobItem (JStr "j3") db1 = (inl TypeError, db1).
Proof.
  split; [reflexivity |].
  apply (removeJobItem_missing_id "j3" db1). reflexivity.
Defined.

(** C6: for a stored job item [j], [removeJobItem] raises the
    [Meteor.Error] with reason "Job item is in progress and can't be
    deleted." and leaves [j] in place exactly when [j]'s status is
    "inProgress"; on every other status it returns [true] and [j] is
    gone, the other job items staying as they were. *)
Theorem removeJobItem_stored (id : string) (j : obj) (st : db) :
  JobItems st !! id = Some j →
  let r := removeJobItem (JStr id) st in
  (fst r = inl (MeteorError "invalid" "Job item is in progress and can't be deleted.")
     ∧ JobItems (snd r) !! id = Some j
   ↔ prop j "status" = JStr "inProgress")
  ∧ (prop j "status" = JStr "inProgress" → snd r = st)
  ∧ (prop j "status" ≠ JStr "inProgress" →
       fst r = inr true
       ∧ JobItems (snd r) !! id = None
       ∧ JobItems (snd r) = delete id (JobItems st)).
Proof.
  intros H r. subst r. rewrite (removeJobItem_present id j st H).
  destruct (strict_eq_str (prop j "status") "inProgress") eqn:Hs; simpl.
  - apply strict_eq_str_true in Hs. by repeat split.
  - apply strict_eq_str_false in Hs. repeat split; try done.
    + by intros [? _].
    + by rewrite lookup_delete_eq.
Qed.

Lemma removeJobItem_stored_witness :
  JobItems db1 !! "j1" = Some jobInProgress
  ∧ fst (removeJobItem (JStr "j1") db1) = inl inProgressError
  ∧ JobItems (snd (removeJobItem (JStr "j1") db1)) !! "j1" = Some jobInProgress.
Proof.
  split; [reflexivity |].
  apply (removeJobItem_stored "j1" jobInProgress db1); reflexivity.
Defined.

(** C9: whatever its argument and whether it returns or throws,
    [removeJobItem] leaves the [Mappings] collection as it found it. *)
Theorem removeJobItem_keeps_Mappings (jobItemId : jsval) (st : db) :
  Mappings (snd (removeJobItem jobItemId st)) = Mappings st.
Proof.
  destruct (is_string jobItemId) eqn:Hs;
    [| by rewrite removeJobItem_not_string].
  destruct jobItemId as [| | | | |id| | |]; try discriminate.
  destruct (JobItems st !! id) as [j|] eqn:Hj.
  - rewrite (removeJobItem_present id j st Hj).
    by destruct (strict_eq_str (prop j "status") "inProgress").
  - by rewrite removeJobItem_absent.
Qed.

(** ** Saving a job item *)

Lemma savesNewMapping_spec (o : obj) :
  savesNewMapping (JObj o) = true ↔
    (prop o "mappingId" = JStr "create"
       ∧ truthy (prop o "shouldSaveToNewMapping") = true)
    ∨ (prop o "mappingId" ≠ JStr "create"
         ∧ prop o "saveMappingAction" = JStr "create").
Proof.
  unfold savesNewMapping; simpl.
  rewrite orb_true_iff, !andb_true_iff, negb_true_iff.
  by rewrite strict_eq_str_false, !strict_eq_str_true.
Qed.

Lemma updatesMapping_spec (o : obj) :
  updatesMapping (JObj o) = true ↔
    prop o "mappingId" ≠ JStr "create"
    ∧ prop o "saveMappingAction" = JStr "update".
Proof.
  unfold updatesMapping; simpl.
  rewrite andb_true_iff, negb_true_iff.
  by rewrite strict_eq_str_false, strict_eq_str_true.
Qed.

(** An update never changes which identifiers are in use. *)
Lemma Collection_set_mapping_lookup_None (sel v : jsval) (c : gmap string obj) (k : string) :
  Collection_set_mapping sel v c !! k = None ↔ c !! k = None.
Proof.
  destruct sel; simpl; try done. apply lookup_alter_None.
Qed.

Lemma Collection_set_mapping_dom (sel v : jsval) (c : gmap string obj) :
  dom (Collection_set_mapping sel v c) = dom c.
Proof.
  destruct sel; simpl; try done. apply dom_alter_L.
Qed.

Lemma Collection_set_mapping_stored (k : string) (t : obj) (v : jsval) (c : gmap string obj) :
  c !! k = Some t →
  Collection_set_mapping (JStr k) v c = <[k := <["mapping" := v]> t]> c.
Proof.
  intros H. simpl. apply map_eq. intros i.
  destruct (decide (k = i)) as [->|Hne].
  - by rewrite lookup_alter_eq, lookup_insert_eq, H.
  - by rewrite lookup_alter_ne, lookup_insert_ne.
Qed.

(** What [saveJobItem] leaves in [Mappings], for an object and a free
    job item identifier. *)
Lemma saveJobItem_Mappings (e : env) (o : obj) (st : db) :
  JobItems st !! jobItemRandomId e = None →
  Mappings (snd (saveJobItem e (JObj o) st)) =
    if savesNewMapping (JObj o) then
      match Mappings st !! mappingRandomId e with
      | Some _ => Mappings st
      | None => <[mappingRandomId e := storedMapping e (JObj o)]> (Mappings st)
      end
    else if updatesMapping (JObj o) then
      Collection_set_mapping (prop o "mappingId") (prop o "mappingByUser") (Mappings st)
    else Mappings st.
Proof.
  intros Hj.
  destruct (savesNewMapping (JObj o)) eqn:Hc.
  - rewrite saveJobItem_insert_branch by done.
    by destruct (Mappings st !! mappingRandomId e).
  - destruct (updatesMapping (JObj o)) eqn:Hu.
    + by rewrite saveJobItem_update_branch.
    + by rewrite saveJobItem_none_branch.
Qed.

(** With both generated identifiers free, [saveJobItem] returns on every
    object. *)
Lemma saveJobItem_succeeds (e : env) (o : obj) (st : db) :
  JobItems st !! jobItemRandomId e = None →
  Mappings st !! mappingRandomId e = None →
  fst (saveJobItem e (JObj o) st) = inr (jobItemRandomId e)
  ∧ JobItems (snd (saveJobItem e (JObj o) st))
    = <[jobItemRandomId e := storedJobItem e (JObj o)]> (JobItems st).
Proof.
  intros Hj Hm.
  destruct (savesNewMapping (JObj o)) eqn:Hc.
  - rewrite saveJobItem_insert_branch by done. by rewrite Hm.
  - destruct (updatesMapping (JObj o)) eqn:Hu.
    + by rewrite saveJobItem_update_branch.
    + by rewrite saveJobItem_none_branch.
Qed.

(** C7: a call of [saveJobItem] that returns has inserted exactly one
    job item, under a new identifier, which is the one returned; that
    item has status "pending", the current time as [uploadedAt], the
    current user as [userId], the current shop as [shopId] and the
    mapping supplied by the caller as [mapping]. *)
Theorem saveJobItem_inserts_pending_job
    (e : env) (values : jsval) (id : string) (st st' : db) :
  saveJobItem e values st = (inr id, st') →
  ∃ j : obj,
    JobItems st !! id = None
    ∧ JobItems st' = <[id := j]> (JobItems st)
    ∧ j !! "_id" = Some (JStr id)
    ∧ j !! "status" = Some (JStr "pending")
    ∧ j !! "uploadedAt" = Some (JDate (now e))
    ∧ j !! "userId" = Some (userId e)
    ∧ j !! "shopId" = Some (getShopId e)
    ∧ j !! "mapping" = Some (get values "mappingByUser").
Proof.
  intros H. apply saveJobItem_returns in H as (_ & -> & Hfree & Hins).
  exists (storedJobItem e values). by repeat split.
Qed.

Lemma saveJobItem_inserts_pending_job_witness :
  saveJobItem env0 valuesA db0 = (inr "job1", withJobItem env0 valuesA db0)
  ∧ ∃ j : obj,
      JobItems (withJobItem env0 valuesA db0) = <["job1" := j]> ∅
      ∧ j !! "status" = Some (JStr "pending")
      ∧ j !! "mapping" = Some (JObj {[ "sku" := JStr "SKU" ]}).
Proof.
  split; [reflexivity |].
  destruct (saveJobItem_inserts_pending_job env0 valuesA "job1" db0
              (withJobItem env0 valuesA db0) eq_refl)
    as (j & _ & Hins & _ & Hstatus & _ & _ & _ & Hmapping).
  exists j. repeat split; assumption.
Defined.

(** C3: with the generated identifiers free, [saveJobItem] inserts one
    new mapping template exactly when [mappingId] is "create" and
    [shouldSaveToNewMapping] holds, or [mappingId] is anything else and
    [saveMappingAction] is "create".  The template carries
    [newMappingName] as its name, the job's [collection] and the
    supplied mapping.  When [mappingId] names a stored template and
    [saveMappingAction] is "create", the new identifier differs from
    [mappingId] and that template is left as it was. *)
Theorem saveJobItem_new_mapping_iff (e : env) (values : jsval) (st : db) :
  JobItems st !! jobItemRandomId e = None →
  Mappings st !! mappingRandomId e = None →
  let st' := snd (saveJobItem e values st) in
  ((∃ k t, Mappings st !! k = None ∧ Mappings st' = <[k := t]> (Mappings st))
   ↔ (get values "mappingId" = JStr "create"
        ∧ truthy (get values "shouldSaveToNewMapping") = true)
     ∨ (get values "mappingId" ≠ JStr "create"
          ∧ get values "saveMappingAction" = JStr "create"))
  ∧ (∀ k t,
       Mappings st !! k = None → Mappings st' = <[k := t]> (Mappings st) →
       t !! "_id" = Some (JStr k)
       ∧ t !! "name" = Some (get values "newMappingName")
       ∧ t !! "collection" = Some (get values "collection")
       ∧ t !! "mapping" = Some (get values "mappingByUser"))
  ∧ (∀ k0 t0,
       get values "mappingId" = JStr k0 → k0 ≠ "create" →
       get values "saveMappingAction" = JStr "create" →
       Mappings st !! k0 = Some t0 →
       mappingRandomId e ≠ k0 ∧ Mappings st' !! k0 = Some t0).
Proof.
  intros Hj Hm st'. subst st'.
  assert (∀ (k : string) (t : obj) (X : gmap string obj),
            Mappings st !! k = None → X = <[k := t]> (Mappings st) →
            X !! k = None → False) as Hno.
  { intros k t X _ -> HX. by rewrite lookup_insert_eq in HX. }
  destruct (is_plain_object values) eqn:Hv.
  - destruct values as [| | | | | | | |o]; try discriminate.
    rewrite (saveJobItem_Mappings e o st Hj), Hm. cbn [get].
    rewrite <- savesNewMapping_spec.
    destruct (savesNewMapping (JObj o)) eqn:Hc.
    + split; [| split].
      * split; [done |]. intros _.
        by exists (mappingRandomId e), (storedMapping e (JObj o)).
      * intros k t Hfree Heq.
        assert (<[mappingRandomId e := storedMapping e (JObj o)]> (Mappings st) !! k
                = Some t) as Hk by by rewrite Heq, lookup_insert_eq.
        destruct (decide (mappingRandomId e = k)) as [<-|Hne].
        -- rewrite lookup_insert_eq in Hk. injection Hk as <-. by repeat split.
        -- rewrite lookup_insert_ne in Hk by done. congruence.
      * intros k0 t0 _ _ _ Hk0.
        assert (mappingRandomId e ≠ k0) as Hne by congruence.
        split; [done |]. by rewrite lookup_insert_ne.
    + split; [| split].
      * split; [| done]. intros (k & t & Hfree & Heq). exfalso.
        destruct (updatesMapping (JObj o)).
        -- apply (Hno k t _ Hfree Heq).
           by apply Collection_set_mapping_lookup_None.
        -- by apply (Hno k t _ Hfree Heq).
      * intros k t Hfree Heq. exfalso.
        destruct (updatesMapping (JObj o)).
        -- apply (Hno k t _ Hfree Heq).
           by apply Collection_set_mapping_lookup_None.
        -- by apply (Hno k t _ Hfree Heq).
      * intros k0 t0 Hid Hk Hact _. exfalso.
        assert (savesNewMapping (JObj o) = true) as Habs; [| congruence].
        apply savesNewMapping_spec. right. split; [| done].
        simpl in Hid. rewrite Hid. congruence.
  - rewrite saveJobItem_not_object by done. simpl.
    unfold savesNewMapping. rewrite !get_not_object by done. simpl.
    split; [| split].
    + split.
      * intros (k & t & Hfree & Heq). exfalso. by apply (Hno k t _ Hfree Heq).
      * intros [[? _] | [_ ?]]; discriminate.
    + intros k t Hfree Heq. exfalso. by apply (Hno k t _ Hfree Heq).
    + discriminate.
Qed.

Lemma saveJobItem_new_mapping_iff_witness :
  JobItems db1 !! "job1" = None
  ∧ Mappings db1 !! "map1" = None
  ∧ "map1" ≠ "m1"
  ∧ Mappings (snd (saveJobItem env0 (JObj objC) db1)) !! "m1" = Some m1.
Proof.
  split; [reflexivity |]. split; [reflexivity |].
  assert (JobItems db1 !! jobItemRandomId env0 = None) as H1 by reflexivity.
  assert (Mappings db1 !! mappingRandomId env0 = None) as H2 by reflexivity.
  assert (prop objC "mappingId" = JStr "m1") as H3 by reflexivity.
  assert ("m1" ≠ "create") as H4 by discriminate.
  assert (prop objC "saveMappingAction" = JStr "create") as H5 by reflexivity.
  assert (Mappings db1 !! "m1" = Some m1) as H6 by reflexivity.
  exact (proj2 (proj2 (saveJobItem_new_mapping_iff env0 (JObj objC) db1 H1 H2))
           "m1" m1 H3 H4 H5 H6).
Defined.

(** C4: when [mappingId] is an identifier other than "create" under
    which a template is stored and [saveMappingAction] is "update",
    [saveJobItem] replaces the [mapping] field of that template by the
    supplied mapping, under the same identifier and with its other
    fields untouched, and inserts no template. *)
Theorem saveJobItem_updates_mapping
    (e : env) (values : jsval) (st : db) (k0 : string) (t0 : obj) :
  get values "mappingId" = JStr k0 →
  k0 ≠ "create" →
  get values "saveMappingAction" = JStr "update" →
  JobItems st !! jobItemRandomId e = None →
  Mappings st !! k0 = Some t0 →
  let st' := snd (saveJobItem e values st) in
  fst (saveJobItem e values st) = inr (jobItemRandomId e)
  ∧ Mappings st' = <[k0 := <["mapping" := get values "mappingByUser"]> t0]> (Mappings st)
  ∧ dom (Mappings st') = dom (Mappings st).
Proof.
  intros Hid Hk Hact Hj Hk0 st'. subst st'.
  destruct (get_string_object _ _ _ Hid) as [o ->]. simpl in Hid, Hact.
  assert (prop o "mappingId" ≠ JStr "create") as Hne by (rewrite Hid; congruence).
  assert (savesNewMapping (JObj o) = false) as Hc.
  { apply not_true_is_false. rewrite savesNewMapping_spec.
    intros [[? _] | [_ Habs]]; [done |]. rewrite Hact in Habs. discriminate. }
  assert (updatesMapping (JObj o) = true) as Hu by by apply updatesMapping_spec.
  rewrite saveJobItem_update_branch by done. simpl.
  rewrite Hid. split; [done |]. split.
  - by apply Collection_set_mapping_stored.
  - apply Collection_set_mapping_dom.
Qed.

Lemma saveJobItem_updates_mapping_witness :
  JobItems db1 !! "job1" = None
  ∧ Mappings db1 !! "m1" = Some m1
  ∧ Mappings (snd (saveJobItem env0 (JObj objB) db1))
    = <["m1" := <["mapping" := prop objB "mappingByUser"]> m1]> (Mappings db1).
Proof.
  split; [reflexivity |]. split; [reflexivity |].
  assert (prop objB "mappingId" = JStr "m1") as H1 by reflexivity.
  assert ("m1" ≠ "create") as H2 by discriminate.
  assert (prop objB "saveMappingAction" = JStr "update") as H3 by reflexivity.
  assert (JobItems db1 !! jobItemRandomId env0 = None) as H4 by reflexivity.
  assert (Mappings db1 !! "m1" = Some m1) as H5 by reflexivity.
  exact (proj1 (proj2 (saveJobItem_updates_mapping env0 (JObj objB) db1 "m1" m1
                         H1 H2 H3 H4 H5))).
Defined.

(** With [mappingId] "create" and [shouldSaveToNewMapping] falsy,
    neither branch of [saveJobItem] is taken. *)
Lemma sentinel_no_branch (o : obj) :
  prop o "mappingId" = JStr "create" →
  truthy (prop o "shouldSaveToNewMapping") = false →
  savesNewMapping (JObj o) = false ∧ updatesMapping (JObj o) = false.
Proof.
  intros Hid Hs. unfold savesNewMapping, updatesMapping; simpl.
  by rewrite Hid, Hs.
Qed.

Lemma sentinel_keeps_Mappings (e : env) (o : obj) (st : db) :
  prop o "mappingId" = JStr "create" →
  truthy (prop o "shouldSaveToNewMapping") = false →
  Mappings (snd (saveJobItem e (JObj o) st)) = Mappings st.
Proof.
  intros Hid Hs. destruct (sentinel_no_branch o Hid Hs) as [Hc Hu].
  destruct (JobItems st !! jobItemRandomId e) as [j|] eqn:Hj.
  - by rewrite saveJobItem_duplicate_job by by rewrite Hj.
  - by rewrite saveJobItem_none_branch.
Qed.

(** C5: when [mappingId] is "create" and [shouldSaveToNewMapping] is
    false or absent, [saveJobItem] leaves [Mappings] as it found it,
    and the job item it creates carries the supplied mapping; it does
    create one whenever the generated identifier is free. *)
Theorem saveJobItem_adhoc_mapping (e : env) (values : jsval) (st : db) :
  get values "mappingId" = JStr "create" →
  truthy (get values "shouldSaveToNewMapping") = false →
  let r := saveJobItem e values st in
  Mappings (snd r) = Mappings st
  ∧ (∀ id, fst r = inr id →
       ∃ j : obj, JobItems (snd r) !! id = Some j
                  ∧ j !! "mapping" = Some (get values "mappingByUser"))
  ∧ (JobItems st !! jobItemRandomId e = None → fst r = inr (jobItemRandomId e)).
Proof.
  intros Hid Hs r. subst r.
  destruct (get_string_object _ _ _ Hid) as [o ->]. simpl in Hid, Hs.
  destruct (sentinel_no_branch o Hid Hs) as [Hc Hu].
  destruct (JobItems st !! jobItemRandomId e) as [j|] eqn:Hj.
  - rewrite saveJobItem_duplicate_job by by rewrite Hj.
    simpl. split; [done |]. split; [| done]. by intros id.
  - rewrite saveJobItem_none_branch by done. simpl.
    split; [done |]. split; [| done]. intros id [= <-].
    exists (storedJobItem e (JObj o)). by rewrite lookup_insert_eq.
Qed.

Lemma saveJobItem_adhoc_mapping_witness :
  prop objA "mappingId" = JStr "create"
  ∧ truthy (prop objA "shouldSaveToNewMapping") = false
  ∧ Mappings (snd (saveJobItem env0 (JObj objA) db1)) = Mappings db1.
Proof.
  split; [reflexivity |]. split; [reflexivity |].
  exact (proj1 (saveJobItem_adhoc_mapping env0 (JObj objA) db1 eq_refl eq_refl)).
Defined.

(** C10: when [mappingId] is "create", [saveMappingAction] plays no
    part: giving it any value changes neither the result nor the
    database, and with [shouldSaveToNewMapping] false or absent
    [Mappings] is left as it was, also for "update" and "create". *)
Theorem saveJobItem_sentinel_ignores_action
    (e : env) (o : obj) (action : jsval) (st : db) :
  prop o "mappingId" = JStr "create" →
  let values := JObj (<["saveMappingAction" := action]> o) in
  saveJobItem e values st = saveJobItem e (JObj o) st
  ∧ (truthy (prop o "shouldSaveToNewMapping") = false →
       Mappings (snd (saveJobItem e values st)) = Mappings st).
Proof.
  intros Hid values.
  assert (∀ k, k ≠ "saveMappingAction" → get values k = get (JObj o) k) as Hget.
  { intros k Hk. by apply get_insert_ne. }
  assert (jobItemDoc e values = jobItemDoc e (JObj o)) as Hdoc.
  { unfold jobItemDoc. by rewrite !Hget. }
  assert (mappingDoc e values = mappingDoc e (JObj o)) as Hmdoc.
  { unfold mappingDoc. by rewrite !Hget. }
  assert (get (JObj o) "mappingId" = JStr "create") as Hid' by done.
  assert (savesNewMapping values = savesNewMapping (JObj o)) as Hc.
  { unfold savesNewMapping. rewrite !Hget by done. rewrite Hid'. simpl.
    by rewrite !orb_false_r. }
  assert (updatesMapping values = false ∧ updatesMapping (JObj o) = false) as [Hu Hu'].
  { unfold updatesMapping. rewrite !Hget by done. by rewrite Hid'. }
  assert (saveJobItem e values st = saveJobItem e (JObj o) st) as Heq.
  { unfold saveJobItem. simpl check_Object. by rewrite Hdoc, Hmdoc, Hc, Hu, Hu'. }
  split; [done |]. intros Hs. rewrite Heq.
  by apply sentinel_keeps_Mappings.
Qed.

Lemma saveJobItem_sentinel_ignores_action_witness :
  prop objA "mappingId" = JStr "create"
  ∧ saveJobItem env0 (JObj (<["saveMappingAction" := JStr "update"]> objA)) db1
    = saveJobItem env0 (JObj objA) db1.
Proof.
  split; [reflexivity |].
  exact (proj1 (saveJobItem_sentinel_ignores_action env0 objA (JStr "update") db1 eq_refl)).
Defined.


(** ** What [saveJobItem] checks before it writes *)

(** On an object whose generated job identifier is free, the job item is
    stored, whatever then happens to the mapping template. *)
Lemma saveJobItem_job_stored (e : env) (o : obj) (st : db) :
  JobItems st !! jobItemRandomId e = None →
  JobItems (snd (saveJobItem e (JObj o) st))
  = <[jobItemRandomId e := storedJobItem e (JObj o)]> (JobItems st)
  ∧ fst (saveJobItem e (JObj o) st) ≠ inl MatchError.
Proof.
  intros Hj.
  destruct (savesNewMapping (JObj o)) eqn:Hc.
  - rewrite saveJobItem_insert_branch by done.
    by destruct (Mappings st !! mappingRandomId e).
  - destruct (updatesMapping (JObj o)) eqn:Hu.
    + by rewrite saveJobItem_update_branch.
    + by rewrite saveJobItem_none_branch.
Qed.

(** C2, as the code has it: the only validation of [saveJobItem] is
    [check(values, Object)].  It fails with a [Match.Error] exactly when
    [values] is not a plain object, and then nothing has been written;
    on a plain object no field is looked at before the job item is
    inserted. *)
Theorem saveJobItem_validates_object_only (e : env) (values : jsval) (st : db) :
  let r := saveJobItem e values st in
  (fst r = inl MatchError ↔ is_plain_object values = false)
  ∧ (is_plain_object values = false → snd r = st)
  ∧ (is_plain_object values = true →
     JobItems st !! jobItemRandomId e = None →
     JobItems (snd r) !! jobItemRandomId e = Some (storedJobItem e values)).
Proof.
  intros r. subst r.
  destruct (is_plain_object values) eqn:Hv.
  - destruct values as [| | | | | | | |o]; try discriminate.
    split; [| split; [done |]].
    + split; [| done]. intros H.
      destruct (JobItems st !! jobItemRandomId e) as [j|] eqn:Hj.
      * rewrite saveJobItem_duplicate_job in H by by rewrite Hj. discriminate.
      * by destruct (saveJobItem_job_stored e o st Hj) as [_ Hne].
    + intros _ Hj. destruct (saveJobItem_job_stored e o st Hj) as [-> _].
      by rewrite lookup_insert_eq.
  - rewrite saveJobItem_not_object by done. by repeat split.
Qed.

(** C2 does not hold as stated: on the empty object, where every
    required field is missing, [saveJobItem] returns and a job item has
    been inserted. *)
Lemma saveJobItem_missing_fields_inserted :
  Forall (λ k, get (JObj ∅) k = JUndefined)
         ["collection"; "fileSource"; "hasHeader"; "jobType";
          "mappingByUser"; "mappingId"; "name"]
  ∧ JobItems db0 !! "job1" = None
  ∧ fst (saveJobItem env0 (JObj ∅) db0) = inr "job1"
  ∧ is_Some (JobItems (snd (saveJobItem env0 (JObj ∅) db0)) !! "job1").
Proof.
  split; [by repeat constructor |].
  split; [reflexivity |]. split; [reflexivity |].
  by eexists.
Qed.

(** C8, as the code has it: [saveJobItem] does not look at the shop and
    user identifiers it is given.  With the generated identifiers free
    it returns on every object, and the job item records as [shopId]
    and [userId] whatever the surroundings supplied, [null] and
    [undefined] included. *)
Theorem saveJobItem_context_unchecked (e : env) (o : obj) (st : db) :
  JobItems st !! jobItemRandomId e = None →
  Mappings st !! mappingRandomId e = None →
  let r := saveJobItem e (JObj o) st in
  fst r = inr (jobItemRandomId e)
  ∧ ∃ j : obj,
      JobItems (snd r) !! jobItemRandomId e = Some j
      ∧ j !! "shopId" = Some (getShopId e)
      ∧ j !! "userId" = Some (userId e).
Proof.
  intros Hj Hm r. subst r.
  destruct (saveJobItem_succeeds e o st Hj Hm) as [-> ->].
  split; [done |]. exists (storedJobItem e (JObj o)).
  by rewrite lookup_insert_eq.
Qed.

Lemma saveJobItem_context_unchecked_witness :
  JobItems db0 !! "job1" = None
  ∧ Mappings db0 !! "map1" = None
  ∧ fst (saveJobItem envAnonymous (JObj objA) db0) = inr "job1".
Proof.
  split; [reflexivity |]. split; [reflexivity |].
  exact (proj1 (saveJobItem_context_unchecked envAnonymous objA db0 eq_refl eq_refl)).
Defined.

(** C8 does not hold as stated: with no user logged in ([userId] is
    [null]) and no shop resolved ([getShopId] is [undefined]),
    [saveJobItem] returns and the job item is in the collection. *)
Lemma saveJobItem_anonymous_inserted :
  getShopId envAnonymous = JUndefined
  ∧ userId envAnonymous = JNull
  ∧ JobItems db0 !! "job1" = None
  ∧ fst (saveJobItem envAnonymous valuesA db0) = inr "job1"
  ∧ ∃ j : obj,
      JobItems (snd (saveJobItem envAnonymous valuesA db0)) !! "job1" = Some j
      ∧ j !! "userId" = Some JNull
      ∧ j !! "shopId" = Some JUndefined.
Proof.
  do 4 (split; [reflexivity |]).
  exists (storedJobItem envAnonymous valuesA). by repeat split.
Qed.

(** ** How the two job item methods compose *)

Lemma storedJobItem_status (e : env) (values : jsval) :
  prop (storedJobItem e values) "status" = JStr "pending".
Proof. reflexivity. Qed.

(** A call of [removeJobItem] that returns was given the identifier of a
    stored job item, and has deleted exactly that one. *)
Lemma removeJobItem_returns (jobItemId : jsval) (b : bool) (st st' : db) :
  removeJobItem jobItemId st = (inr b, st') →
  ∃ id j, jobItemId = JStr id
          ∧ JobItems st !! id = Some j
          ∧ b = true
          ∧ st' = mkDb (delete id (JobItems st)) (Mappings st).
Proof.
  intros H.
  destruct (is_string jobItemId) eqn:Hs;
    [| by rewrite removeJobItem_not_string in H].
  destruct jobItemId as [| | | | |id| | |]; try discriminate.
  destruct (JobItems st !! id) as [j|] eqn:Hj;
    [| by rewrite removeJobItem_absent in H].
  rewrite (removeJobItem_present id j st Hj) in H.
  destruct (strict_eq_str (prop j "status") "inProgress"); [done |].
  exists id, j. by simplify_eq.
Qed.

(** X1: a job item just saved can be removed at once: [removeJobItem]
    on the identifier [saveJobItem] returned gives [true] and puts
    [JobItems] back to what it was before the save, while [Mappings]
    keeps what the save did to it. *)
Theorem saveJobItem_then_removeJobItem
    (e : env) (values : jsval) (id : string) (st st' : db) :
  saveJobItem e values st = (inr id, st') →
  removeJobItem (JStr id) st' = (inr true, mkDb (JobItems st) (Mappings st')).
Proof.
  intros H. apply saveJobItem_returns in H as (_ & -> & Hfree & Hins).
  rewrite (removeJobItem_present (jobItemRandomId e) (storedJobItem e values) st');
    [| by rewrite Hins, lookup_insert_eq].
  rewrite storedJobItem_status. simpl.
  by rewrite Hins, delete_insert_id.
Qed.

Lemma saveJobItem_then_removeJobItem_witness :
  saveJobItem env0 valuesB db1
  = (inr "job1", snd (saveJobItem env0 valuesB db1))
  ∧ removeJobItem (JStr "job1") (snd (saveJobItem env0 valuesB db1))
    = (inr true,
       mkDb (JobItems db1) (Mappings (snd (saveJobItem env0 valuesB db1)))).
Proof.
  split; [reflexivity |].
  exact (saveJobItem_then_removeJobItem env0 valuesB "job1" db1
           (snd (saveJobItem env0 valuesB db1)) eq_refl).
Defined.

(** X2: a call of [removeJobItem] that throws, for whichever of its
    three reasons, leaves the whole database as it was. *)
Theorem removeJobItem_throw_keeps_db (jobItemId : jsval) (x : exn) (st : db) :
  fst (removeJobItem jobItemId st) = inl x →
  snd (removeJobItem jobItemId st) = st.
Proof.
  intros H.
  destruct (is_string jobItemId) eqn:Hs;
    [| by rewrite removeJobItem_not_string].
  destruct jobItemId as [| | | | |id| | |]; try discriminate.
  destruct (JobItems st !! id) as [j|] eqn:Hj;
    [| by rewrite removeJobItem_absent].
  rewrite (removeJobItem_present id j st Hj) in H |- *.
  by destruct (strict_eq_str (prop j "status") "inProgress").
Qed.

Lemma removeJobItem_throw_keeps_db_witness :
  fst (removeJobItem (JStr "j1") db1) = inl inProgressError
  ∧ snd (removeJobItem (JStr "j1") db1) = db1.
Proof.
  split; [reflexivity |].
  exact (removeJobItem_throw_keeps_db (JStr "j1") inProgressError db1 eq_refl).
Defined.

(** X3: removing is not idempotent: once [removeJobItem] has returned,
    the same call again ends in the [TypeError] of the missing item and
    changes nothing. *)
Theorem removeJobItem_twice (jobItemId : jsval) (b : bool) (st st' : db) :
  removeJobItem jobItemId st = (inr b, st') →
  removeJobItem jobItemId st' = (inl TypeError, st').
Proof.
  intros H. apply removeJobItem_returns in H as (id & j & -> & _ & _ & ->).
  apply removeJobItem_absent. simpl. apply lookup_delete_eq.
Qed.

Lemma removeJobItem_twice_witness :
  removeJobItem (JStr "j2") db1 = (inr true, snd (removeJobItem (JStr "j2") db1))
  ∧ removeJobItem (JStr "j2") (snd (removeJobItem (JStr "j2") db1))
    = (inl TypeError, snd (removeJobItem (JStr "j2") db1)).
Proof.
  split; [reflexivity |].
  exact (removeJobItem_twice (JStr "j2") true db1
           (snd (removeJobItem (JStr "j2") db1)) eq_refl).
Defined.

(** ** What [saveJobItem] leaves alone *)

(** X4: whatever it is called with and however it ends, [saveJobItem]
    keeps every job item already stored, unchanged. *)
Theorem saveJobItem_keeps_job_items
    (e : env) (values : jsval) (st : db) (k : string) (j : obj) :
  JobItems st !! k = Some j →
  JobItems (snd (saveJobItem e values st)) !! k = Some j.
Proof.
  intros Hk.
  destruct (is_plain_object values) eqn:Hv;
    [| by rewrite saveJobItem_not_object].
  destruct values as [| | | | | | | |o]; try discriminate.
  destruct (JobItems st !! jobItemRandomId e) as [j'|] eqn:Hj.
  - by rewrite saveJobItem_duplicate_job by by rewrite Hj.
  - destruct (saveJobItem_job_stored e o st Hj) as [-> _].
    rewrite lookup_insert_ne; [done | congruence].
Qed.

Lemma saveJobItem_keeps_job_items_witness :
  JobItems db1 !! "j1" = Some jobInProgress
  ∧ JobItems (snd (saveJobItem env0 valuesC db1)) !! "j1" = Some jobInProgress.
Proof.
  split; [reflexivity |].
  exact (saveJobItem_keeps_job_items env0 valuesC db1 "j1" jobInProgress eq_refl).
Defined.



(** X6: an "update" aimed at an identifier under which no template is
    stored goes unnoticed: [saveJobItem] returns the new job item's
    identifier and [Mappings] is exactly what it was. *)
Theorem saveJobItem_update_missing_template
    (e : env) (values : jsval) (st : db) (k0 : string) :
  get values "mappingId" = JStr k0 →
  k0 ≠ "create" →
  get values "saveMappingAction" = JStr "update" →
  JobItems st !! jobItemRandomId e = None →
  Mappings st !! k0 = None →
  fst (saveJobItem e values st) = inr (jobItemRandomId e)
  ∧ Mappings (snd (saveJobItem e values st)) = Mappings st.
Proof.
  intros Hid Hk Hact Hj Hk0.
  destruct (get_string_object _ _ _ Hid) as [o ->]. simpl in Hid, Hact.
  assert (prop o "mappingId" ≠ JStr "create") as Hne by (rewrite Hid; congruence).
  assert (savesNewMapping (JObj o) = false) as Hc.
  { apply not_true_is_false. rewrite savesNewMapping_spec.
    intros [[? _] | [_ Habs]]; [done |]. rewrite Hact in Habs. discriminate. }
  assert (updatesMapping (JObj o) = true) as Hu by by apply updatesMapping_spec.
  rewrite saveJobItem_update_branch by done. simpl.
  rewrite Hid. simpl. split; [done |]. by apply alter_id'.
Qed.

Lemma saveJobItem_update_missing_template_witness :
  Mappings db0 !! "m1" = None
  ∧ fst (saveJobItem env0 valuesB db0) = inr "job1"
  ∧ Mappings (snd (saveJobItem env0 valuesB db0)) = Mappings db0.
Proof.
  split; [reflexivity |].
  assert ("m1" ≠ "create") as Hne by discriminate.
  exact (saveJobItem_update_missing_template env0 valuesB db0 "m1"
           eq_refl Hne eq_refl eq_refl eq_refl).
Defined.

(** X7: when [mappingId] is not "create", [shouldSaveToNewMapping] plays
    no part: giving it any value changes neither the result nor the
    database. *)
Theorem saveJobItem_real_id_ignores_flag
    (e : env) (o : obj) (flag : jsval) (st : db) :
  prop o "mappingId" ≠ JStr "create" →
  saveJobItem e (JObj (<["shouldSaveToNewMapping" := flag]> o)) st
  = saveJobItem e (JObj o) st.
Proof.
  intros Hid. set (values := JObj (<["shouldSaveToNewMapping" := flag]> o)).
  assert (∀ k, k ≠ "shouldSaveToNewMapping" → get values k = get (JObj o) k) as Hget.
  { intros k Hk. by apply get_insert_ne. }
  assert (jobItemDoc e values = jobItemDoc e (JObj o)) as Hdoc.
  { unfold jobItemDoc. by rewrite !Hget. }
  assert (mappingDoc e values = mappingDoc e (JObj o)) as Hmdoc.
  { unfold mappingDoc. by rewrite !Hget. }
  assert (strict_eq_str (get (JObj o) "mappingId") "create" = false) as Hid'
    by by apply strict_eq_str_false.
  assert (savesNewMapping values = savesNewMapping (JObj o)) as Hc.
  { unfold savesNewMapping.
    rewrite (Hget "mappingId"), (Hget "saveMappingAction") by done.
    by rewrite Hid'. }
  assert (updatesMapping values = updatesMapping (JObj o)) as Hu.
  { unfold updatesMapping. by rewrite !Hget. }
  unfold saveJobItem. simpl check_Object.
  by rewrite Hdoc, Hmdoc, Hc, Hu, (Hget "mappingId"), (Hget "mappingByUser").
Qed.

Lemma saveJobItem_real_id_ignores_flag_witness :
  prop objB "mappingId" ≠ JStr "create"
  ∧ saveJobItem env0 (JObj (<["shouldSaveToNewMapping" := JBool true]> objB)) db1
    = saveJobItem env0 (JObj objB) db1.
Proof.
  assert (prop objB "mappingId" ≠ JStr "create") as Hne by discriminate.
  split; [exact Hne |].
  exact (saveJobItem_real_id_ignores_flag env0 objB (JBool true) db1 Hne).
Defined.

(** X8: nothing is rolled back.  When the new mapping template cannot be
    inserted because its identifier is taken, [saveJobItem] throws, yet
    the job item it inserted first stays in [JobItems]; [Mappings] is
    untouched.  When it is the job item's identifier that is taken,
    nothing at all is written. *)
Theorem saveJobItem_no_rollback (e : env) (o : obj) (st : db) :
  (prop o "mappingId" = JStr "create"
     ∧ truthy (prop o "shouldSaveToNewMapping") = true)
  ∨ (prop o "mappingId" ≠ JStr "create"
       ∧ prop o "saveMappingAction" = JStr "create") →
  is_Some (Mappings st !! mappingRandomId e) →
  (JobItems st !! jobItemRandomId e = None →
     fst (saveJobItem e (JObj o) st) = inl MongoError
     ∧ JobItems (snd (saveJobItem e (JObj o) st))
       = <[jobItemRandomId e := storedJobItem e (JObj o)]> (JobItems st)
     ∧ Mappings (snd (saveJobItem e (JObj o) st)) = Mappings st)
  ∧ (is_Some (JobItems st !! jobItemRandomId e) →
       saveJobItem e (JObj o) st = (inl MongoError, st)).
Proof.
  intros Hc [t Ht]. apply savesNewMapping_spec in Hc. split.
  - intros Hj. rewrite saveJobItem_insert_branch by done. by rewrite Ht.
  - apply saveJobItem_duplicate_job.
Qed.

Lemma saveJobItem_no_rollback_witness :
  is_Some (Mappings db1 !! "m1")
  ∧ fst (saveJobItem (mkEnv JNull JNull 0 "job1" "m1") (JObj objC) db1) = inl MongoError
  ∧ is_Some (JobItems (snd (saveJobItem (mkEnv JNull JNull 0 "job1" "m1") (JObj objC) db1))
               !! "job1").
Proof.
  assert (is_Some (Mappings db1 !! "m1")) as Hm by by eexists.
  assert (prop objC "mappingId" ≠ JStr "create") as Hne by discriminate.
  split; [exact Hm |].
  destruct (saveJobItem_no_rollback (mkEnv JNull JNull 0 "job1" "m1") objC db1
              (or_intror (conj Hne eq_refl)) Hm) as [H _].
  destruct (H eq_refl) as (Hr & Hjobs & _).
  split; [exact Hr |]. rewrite Hjobs. simpl. rewrite lookup_insert_eq. by eexists.
Defined.

(** X9: [saveJobItem] looks at nothing but the eleven properties it
    destructures: two objects that agree on them give the same result
    and the same database, so that a [status], [shopId], [userId],
    [uploadedAt] or [_id] sent by the caller has no effect. *)
Theorem saveJobItem_reads_only (e : env) (o1 o2 : obj) (st : db) :
  Forall (λ k, prop o1 k = prop o2 k)
         ["collection"; "fileSource"; "hasHeader"; "jobSubType"; "jobType";
          "mappingByUser"; "mappingId"; "name"; "newMappingName";
          "saveMappingAction"; "shouldSaveToNewMapping"] →
  saveJobItem e (JObj o1) st = saveJobItem e (JObj o2) st.
Proof.
  intros H. repeat (apply Forall_cons in H as [? H]).
  unfold saveJobItem, jobItemDoc, mappingDoc, savesNewMapping, updatesMapping.
  cbn [get check_Object is_plain_object].
  by repeat match goal with Heq : prop o1 _ = prop o2 _ |- _ => rewrite Heq; clear Heq end.
Qed.

Lemma saveJobItem_reads_only_witness :
  saveJobItem env0 (JObj (<["status" := JStr "completed"]> objA)) db1
  = saveJobItem env0 (JObj objA) db1.
Proof.
  apply (saveJobItem_reads_only env0 (<["status" := JStr "completed"]> objA) objA db1).
  repeat constructor.
Defined.

(** X10: a call of [saveJobItem] adds at most one job item and at most
    one mapping template, and only under the identifiers generated for
    them. *)
Theorem saveJobItem_adds_at_most_one (e : env) (values : jsval) (st : db) (k : string) :
  (is_Some (JobItems (snd (saveJobItem e values st)) !! k) →
     is_Some (JobItems st !! k) ∨ k = jobItemRandomId e)
  ∧ (is_Some (Mappings (snd (saveJobItem e values st)) !! k) →
       is_Some (Mappings st !! k) ∨ k = mappingRandomId e).
Proof.
  destruct (is_plain_object values) eqn:Hv;
    [| rewrite saveJobItem_not_object by done; simpl; eauto].
  destruct values as [| | | | | | | |o]; try discriminate.
  destruct (JobItems st !! jobItemRandomId e) as [j'|] eqn:Hj.
  { rewrite saveJobItem_duplicate_job by (by rewrite Hj). simpl. eauto. }
  destruct (saveJobItem_job_stored e o st Hj) as [-> _].
  rewrite (saveJobItem_Mappings e o st Hj). split.
  - rewrite lookup_insert. case_decide; eauto.
  - destruct (savesNewMapping (JObj o)).
    + destruct (Mappings st !! mappingRandomId e); [eauto |].
      rewrite lookup_insert. case_decide; eauto.
    + destruct (updatesMapping (JObj o)); [| eauto].
      intros Hs. left. apply not_eq_None_Some. apply not_eq_None_Some in Hs.
      by rewrite Collection_set_mapping_lookup_None in Hs.
Qed.

(** ** The [Packages] collection *)

(** Setting [settings] does not change which selectors by name a
    document matches. *)
Lemma name_matches_set_settings (name : string) (v : jsval) (d : obj) :
  name_matches name (<["settings" := v]> d) = name_matches name d.
Proof. unfold name_matches, prop. by rewrite lookup_insert_ne. Qed.

Lemma Collection_set_settings_none (name : string) (v : jsval) (pkgs : list obj) :
  List.find (name_matches name) pkgs = None →
  Collection_set_settings name v pkgs = (0%Z, pkgs).
Proof.
  induction pkgs as [|d rest IH]; simpl; [done |].
  destruct (name_matches name d); [done |].
  intros H. by rewrite (IH H).
Qed.

Lemma Collection_set_settings_first
    (name : string) (v : jsval) (before after : list obj) (d : obj) :
  Forall (λ x, name_matches name x = false) before →
  name_matches name d = true →
  Collection_set_settings name v (before ++ d :: after)
  = (1%Z, before ++ <["settings" := v]> d :: after).
Proof.
  intros Hb Hd. induction Hb as [|x before Hx Hb IH]; simpl.
  - by rewrite Hd.
  - by rewrite Hx, IH.
Qed.

(** The document a query by name finds after an update is the one it
    found before, with its [settings] set. *)
Lemma find_Collection_set_settings (name : string) (v : jsval) (pkgs : list obj) :
  List.find (name_matches name) (snd (Collection_set_settings name v pkgs))
  = insert "settings" v <$> List.find (name_matches name) pkgs.
Proof.
  induction pkgs as [|d rest IH]; simpl; [done |].
  destruct (name_matches name d) eqn:Hd; simpl.
  - by rewrite name_matches_set_settings, Hd.
  - by rewrite Hd.
Qed.

Lemma Collection_set_settings_count (name : string) (v : jsval) (pkgs : list obj) :
  fst (Collection_set_settings name v pkgs)
  = match List.find (name_matches name) pkgs with Some _ => 1%Z | None => 0%Z end.
Proof.
  induction pkgs as [|d rest IH]; simpl; [done |].
  by destruct (name_matches name d).
Qed.

Lemma Collection_set_settings_length (name : string) (v : jsval) (pkgs : list obj) :
  length (snd (Collection_set_settings name v pkgs)) = length pkgs.
Proof.
  induction pkgs as [|d rest IH]; simpl; [done |].
  destruct (name_matches name d); simpl; by rewrite ?IH.
Qed.

(** A first match splits the collection around it. *)
Lemma find_split (name : string) (pkgs : list obj) (d : obj) :
  List.find (name_matches name) pkgs = Some d →
  ∃ before after,
    pkgs = before ++ d :: after
    ∧ Forall (λ x, name_matches name x = false) before
    ∧ name_matches name d = true.
Proof.
  induction pkgs as [|x rest IH]; simpl; [done |].
  destruct (name_matches name x) eqn:Hx.
  - intros [= ->]. by exists [], rest.
  - intros H. destruct (IH H) as (before & after & -> & Hb & Hd).
    exists (x :: before), after. split; [done |]. split; [| done].
    by constructor.
Qed.

(** ** EJSON *)

Lemma EJSON_roundtrip_object (values : jsval) :
  is_plain_object values = true → is_plain_object (EJSON_roundtrip values) = true.
Proof. by destruct values. Qed.

(** A string, a number or a boolean directly under a property comes
    back as it went in. *)
Lemma EJSON_roundtrip_get (values : jsval) (k : string) :
  is_string (get values k) || is_number (get values k) = true →
  get (EJSON_roundtrip values) k = get values k.
Proof.
  destruct values as [| | | | | | | |o]; try done.
  simpl. unfold prop. rewrite lookup_omap.
  by destruct (o !! k) as [[]|].
Qed.

(** ** The two settings methods, case by case *)

Lemma updateS3Settings_cases (w : world) (values : jsval) (pkgs : list obj) :
  updateS3Settings w values pkgs =
    if validS3Settings values then
      if hasPermission w "core" then
        Packages_update_settings "connector-settings-aws-s3"
          (EJSON_roundtrip values) pkgs
      else (inl accessDenied, pkgs)
    else (inl MatchError, pkgs).
Proof.
  unfold updateS3Settings, validS3Settings, mbind, P_bind, P_check.
  destruct (is_plain_object values); [| done].
  destruct (is_string (get values "accessKey")); [| done].
  destruct (is_string (get values "secretAccessKey")); [| done].
  destruct (is_string (get values "bucket")); [| done].
  by destruct (hasPermission w "core").
Qed.

Lemma updateSFTPSettings_cases (w : world) (values : jsval) (pkgs : list obj) :
  updateSFTPSettings w values pkgs =
    if validSFTPSettings values then
      if hasPermission w "core" then
        Packages_update_settings "connector-settings-sftp"
          (EJSON_roundtrip values) pkgs
      else (inl accessDenied, pkgs)
    else (inl MatchError, pkgs).
Proof.
  unfold updateSFTPSettings, validSFTPSettings, mbind, P_bind, P_check.
  destruct (is_plain_object values); [| done].
  destruct (is_string (get values "ipAddress")); [| done].
  destruct (is_number (get values "port")); [| done].
  destruct (is_string (get values "username")); [| done].
  destruct (is_string (get values "password")); [| done].
  by destruct (hasPermission w "core").
Qed.

(** What the three test methods make of the package they find. *)
Lemma destructure_settings_spec (pkg : jsval) :
  destructure_settings pkg =
    if nullish (get pkg "settings") then inl TypeError
    else inr (get pkg "settings").
Proof.
  unfold destructure_settings.
  destruct pkg as [| |b|n| |t| | |o]; simpl; try done.
  - by destruct b.
  - by destruct (n =? 0)%Z.
  - by destruct (String.eqb t "").
  - by destruct (prop o "settings").
Qed.

(** ** Saving credentials *)

(** X11: [updateS3Settings] fails with a [Match.Error] exactly when
    [values] is not an object with strings for [accessKey],
    [secretAccessKey] and [bucket], whoever calls; it fails with
    "access-denied" exactly when [values] passes and the caller lacks
    the "core" permission; and no failure changes [Packages]. *)
Theorem updateS3Settings_outcome (w : world) (values : jsval) (pkgs : list obj) :
  let r := updateS3Settings w values pkgs in
  (fst r = inl MatchError ↔ validS3Settings values = false)
  ∧ (fst r = inl (MeteorError "access-denied" "Access Denied")
     ↔ validS3Settings values = true ∧ hasPermission w "core" = false)
  ∧ (∀ x, fst r = inl x → snd r = pkgs).
Proof.
  intros r. subst r. rewrite updateS3Settings_cases.
  destruct (validS3Settings values); [| by repeat split; try intros []].
  destruct (hasPermission w "core"); simpl.
  - repeat split; try done. by intros [].
  - repeat split; try done.
Qed.

(** X12: [updateSFTPSettings] fails with a [Match.Error] exactly when
    [values] is not an object with strings for [ipAddress], [username]
    and [password] and a number for [port], so that a port sent as a
    string is refused; it fails with "access-denied" exactly when
    [values] passes and the caller lacks the "core" permission; and no
    failure changes [Packages]. *)
Theorem updateSFTPSettings_outcome (w : world) (values : jsval) (pkgs : list obj) :
  let r := updateSFTPSettings w values pkgs in
  (fst r = inl MatchError ↔ validSFTPSettings values = false)
  ∧ (∀ port, get values "port" = JStr port → fst r = inl MatchError)
  ∧ (fst r = inl (MeteorError "access-denied" "Access Denied")
     ↔ validSFTPSettings values = true ∧ hasPermission w "core" = false)
  ∧ (∀ x, fst r = inl x → snd r = pkgs).
Proof.
  intros r. subst r. rewrite updateSFTPSettings_cases.
  assert (∀ port, get values "port" = JStr port → validSFTPSettings values = false)
    as Hport.
  { intros port H. unfold validSFTPSettings. rewrite H. simpl.
    by rewrite andb_false_r. }
  destruct (validSFTPSettings values).
  - destruct (hasPermission w "core"); simpl.
    + repeat split; try done.
      * intros port H. by specialize (Hport port H).
      * by intros [].
    + repeat split; try done.
      intros port H. by specialize (Hport port H).
  - repeat split; try done. by intros [].
Qed.

(** X13: with valid [values] and the permission, [updateS3Settings]
    replaces the [settings] of the first package named
    "connector-settings-aws-s3" by the copy of the whole of [values],
    leaves every other document and the order as they were, and returns
    1; with no such package it returns 0 and changes nothing. *)
Theorem updateS3Settings_effect (w : world) (values : jsval) (pkgs : list obj) :
  validS3Settings values = true →
  hasPermission w "core" = true →
  (List.find (name_matches "connector-settings-aws-s3") pkgs = None →
     updateS3Settings w values pkgs = (inr 0%Z, pkgs))
  ∧ (∀ before d after,
       pkgs = before ++ d :: after →
       Forall (λ x, name_matches "connector-settings-aws-s3" x = false) before →
       name_matches "connector-settings-aws-s3" d = true →
       updateS3Settings w values pkgs
       = (inr 1%Z, before ++ <["settings" := EJSON_roundtrip values]> d :: after)).
Proof.
  intros Hv Hp. rewrite updateS3Settings_cases, Hv, Hp.
  unfold Packages_update_settings. split.
  - intros Hnone. by rewrite Collection_set_settings_none.
  - intros before d after -> Hb Hd.
    by rewrite Collection_set_settings_first.
Qed.

Lemma updateS3Settings_effect_witness :
  validS3Settings (JObj objS3) = true
  ∧ hasPermission world0 "core" = true
  ∧ updateS3Settings world0 (JObj objS3) pkgs0
    = (inr 1%Z, [pkgOther; <["settings" := EJSON_roundtrip (JObj objS3)]> pkgS3]).
Proof.
  split; [reflexivity |]. split; [reflexivity |].
  apply (proj2 (updateS3Settings_effect world0 (JObj objS3) pkgs0 eq_refl eq_refl)
           [pkgOther] pkgS3 []); [reflexivity | | reflexivity].
  by repeat constructor.
Defined.

(** X14: what [updateSFTPSettings] saves can be read back: after a call
    with valid [values] and the permission, the package found under
    "connector-settings-sftp" is the one found before, with its other
    fields as they were and with [settings] holding the [ipAddress],
    [port], [username] and [password] of [values]; no document has been
    added or dropped. *)
Theorem updateSFTPSettings_read_back
    (w : world) (values : jsval) (pkgs : list obj) (d : obj) :
  validSFTPSettings values = true →
  hasPermission w "core" = true →
  List.find (name_matches "connector-settings-sftp") pkgs = Some d →
  let pkgs' := snd (updateSFTPSettings w values pkgs) in
  ∃ d' : obj,
    Packages_findOne "connector-settings-sftp" pkgs' = JObj d'
    ∧ (∀ f, f ≠ "settings" → d' !! f = d !! f)
    ∧ get (prop d' "settings") "ipAddress" = get values "ipAddress"
    ∧ get (prop d' "settings") "port" = get values "port"
    ∧ get (prop d' "settings") "username" = get values "username"
    ∧ get (prop d' "settings") "password" = get values "password"
    ∧ length pkgs' = length pkgs.
Proof.
  intros Hv Hp Hd pkgs'. subst pkgs'.
  rewrite updateSFTPSettings_cases, Hv, Hp.
  unfold Packages_update_settings, Packages_findOne. simpl.
  rewrite find_Collection_set_settings, Hd. simpl.
  exists (<["settings" := EJSON_roundtrip values]> d).
  unfold validSFTPSettings in Hv.
  repeat (apply andb_prop in Hv as [Hv ?]).
  split; [done |]. split.
  { intros f Hf. by rewrite lookup_insert_ne. }
  assert (prop (<["settings" := EJSON_roundtrip values]> d) "settings"
          = EJSON_roundtrip values) as ->.
  { unfold prop. by rewrite lookup_insert_eq. }
  repeat split;
    try (apply EJSON_roundtrip_get;
         by rewrite ?H, ?H0, ?H1, ?H2, ?orb_true_r).
  apply Collection_set_settings_length.
Qed.

Lemma updateSFTPSettings_read_back_witness :
  validSFTPSettings (JObj objSFTP) = true
  ∧ hasPermission world0 "core" = true
  ∧ List.find (name_matches "connector-settings-sftp") [pkgOther; pkgSFTP]
    = Some pkgSFTP
  ∧ ∃ d' : obj,
      Packages_findOne "connector-settings-sftp"
        (snd (updateSFTPSettings world0 (JObj objSFTP) [pkgOther; pkgSFTP])) = JObj d'
      ∧ get (prop d' "settings") "port" = JNum 22.
Proof.
  do 3 (split; [reflexivity |]).
  destruct (updateSFTPSettings_read_back world0 (JObj objSFTP) [pkgOther; pkgSFTP]
              pkgSFTP eq_refl eq_refl eq_refl)
    as (d' & Hfind & _ & _ & Hport & _).
  exists d'. split; [exact Hfind | exact Hport].
Defined.

(** ** Testing credentials *)

Lemma s3TestForExport_cases (w : world) (pkgs : list obj) :
  s3TestForExport w pkgs =
    if hasPermission w "core" then
      let settings := get (Packages_findOne "connector-settings-aws-s3" pkgs) "settings" in
      if nullish settings then inl TypeError
      else inr match S3_upload w (get settings "accessKey")
                       (get settings "secretAccessKey") (get settings "bucket")
                       "ReactionCSVExport--TestOnly.txt"
                       "This is just a sample CSV export file from Reaction." with
               | None => Pending
               | Some (error, result) =>
                   if truthy result then Resolved (JBool true)
                   else Rejected (inr error)
               end
    else inl accessDenied.
Proof.
  unfold s3TestForExport. destruct (hasPermission w "core"); [| done]. simpl.
  rewrite destructure_settings_spec.
  by destruct (nullish _).
Qed.

Lemma s3TestForImport_cases (w : world) (pkgs : list obj) :
  s3TestForImport w pkgs =
    if hasPermission w "core" then
      let settings := get (Packages_findOne "connector-settings-aws-s3" pkgs) "settings" in
      if nullish settings then inl TypeError
      else inr match S3_getObject w (get settings "accessKey")
                       (get settings "secretAccessKey") (get settings "bucket")
                       "test.txt" with
               | None => Pending
               | Some (error, result) =>
                   if truthy result
                      || (truthy error && strict_eq_str (get error "code") "NoSuchKey")
                   then Resolved (JBool true)
                   else Rejected (inr error)
               end
    else inl accessDenied.
Proof.
  unfold s3TestForImport. destruct (hasPermission w "core"); [| done]. simpl.
  rewrite destructure_settings_spec.
  by destruct (nullish _).
Qed.

Lemma sftpTestForImportAndExport_cases (w : world) (pkgs : list obj) :
  sftpTestForImportAndExport w pkgs =
    if hasPermission w "core" then
      let settings := get (Packages_findOne "connector-settings-sftp" pkgs) "settings" in
      if nullish settings then Rejected (inl TypeError)
      else match sftp_connect w (get settings "ipAddress")
                   (toString w (get settings "port"))
                   (get settings "username") (get settings "password") with
           | Resolved _ => Resolved (JBool true)
           | Rejected error => Rejected error
           | Pending => Pending
           end
    else Rejected (inl accessDenied).
Proof.
  unfold sftpTestForImportAndExport. destruct (hasPermission w "core"); [| done].
  simpl. rewrite destructure_settings_spec.
  by destruct (nullish _).
Qed.

(** X15: for a caller without the "core" permission none of the five
    credential methods does anything: the two settings methods fail and
    leave [Packages] as it was, and the three tests end in
    "access-denied" whatever is stored and whatever the remote service
    would have answered. *)
Theorem credential_methods_need_permission
    (w : world) (values : jsval) (pkgs : list obj) :
  hasPermission w "core" = false →
  (∃ x, updateS3Settings w values pkgs = (inl x, pkgs))
  ∧ (∃ x, updateSFTPSettings w values pkgs = (inl x, pkgs))
  ∧ s3TestForExport w pkgs = inl (MeteorError "access-denied" "Access Denied")
  ∧ s3TestForImport w pkgs = inl (MeteorError "access-denied" "Access Denied")
  ∧ sftpTestForImportAndExport w pkgs
    = Rejected (inl (MeteorError "access-denied" "Access Denied")).
Proof.
  intros Hp.
  rewrite updateS3Settings_cases, updateSFTPSettings_cases, s3TestForExport_cases,
    s3TestForImport_cases, sftpTestForImportAndExport_cases, Hp.
  repeat split; try done.
  - destruct (validS3Settings values); eauto.
  - destruct (validSFTPSettings values); eauto.
Qed.

Lemma credential_methods_need_permission_witness :
  hasPermission worldDenied "core" = false
  ∧ s3TestForExport worldDenied pkgs0 = inl accessDenied
  ∧ updateS3Settings worldDenied (JObj objS3) pkgs0 = (inl accessDenied, pkgs0).
Proof.
  split; [reflexivity |].
  destruct (credential_methods_need_permission worldDenied (JObj objS3) pkgs0 eq_refl)
    as (_ & _ & H & _).
  split; [exact H | reflexivity].
Defined.

(** X16: a test run before the settings exist ends in a [TypeError]:
    when no package of the expected name is stored, or the one found has
    no [settings] (or [null] there), the two S3 tests throw it and the
    SFTP test is rejected with it; the remote service is not asked. *)
Theorem test_methods_without_settings (w : world) (pkgs : list obj) :
  hasPermission w "core" = true →
  (nullish (get (Packages_findOne "connector-settings-aws-s3" pkgs) "settings") = true →
     s3TestForExport w pkgs = inl TypeError
     ∧ s3TestForImport w pkgs = inl TypeError)
  ∧ (nullish (get (Packages_findOne "connector-settings-sftp" pkgs) "settings") = true →
       sftpTestForImportAndExport w pkgs = Rejected (inl TypeError)).
Proof.
  intros Hp.
  rewrite s3TestForExport_cases, s3TestForImport_cases,
    sftpTestForImportAndExport_cases, Hp. simpl.
  split; by intros ->.
Qed.

Lemma test_methods_without_settings_witness :
  hasPermission world0 "core" = true
  ∧ Packages_findOne "connector-settings-aws-s3" [pkgOther] = JUndefined
  ∧ s3TestForExport world0 [pkgOther] = inl TypeError
  ∧ sftpTestForImportAndExport world0 pkgs0 = Rejected (inl TypeError).
Proof.
  split; [reflexivity |]. split; [reflexivity |].
  split.
  - exact (proj1 (proj1 (test_methods_without_settings world0 [pkgOther] eq_refl)
                    eq_refl)).
  - exact (proj2 (test_methods_without_settings world0 pkgs0 eq_refl) eq_refl).
Defined.

(** X17: with the permission and stored settings, [s3TestForImport]
    resolves, and then with [true], exactly when S3 answers with an
    object or with an error whose code is "NoSuchKey": a bucket that can
    be read but has no "test.txt" passes.  Any other answer is a
    rejection with the very error S3 gave, and no answer leaves the
    promise pending. *)
Theorem s3TestForImport_resolves (w : world) (pkgs : list obj) (settings : jsval) :
  hasPermission w "core" = true →
  get (Packages_findOne "connector-settings-aws-s3" pkgs) "settings" = settings →
  nullish settings = false →
  let answer := S3_getObject w (get settings "accessKey")
                  (get settings "secretAccessKey") (get settings "bucket")
                  "test.txt" in
  (∀ v, s3TestForImport w pkgs = inr (Resolved v) ↔
        v = JBool true
        ∧ ∃ error result,
            answer = Some (error, result)
            ∧ (truthy result = true
               ∨ (truthy error = true ∧ get error "code" = JStr "NoSuchKey")))
  ∧ (∀ r, s3TestForImport w pkgs = inr (Rejected r) →
          ∃ error result, answer = Some (error, result) ∧ r = inr error)
  ∧ (s3TestForImport w pkgs = inr Pending ↔ answer = None).
Proof.
  intros Hp Hs Hn answer. subst answer.
  rewrite s3TestForImport_cases, Hp. simpl. rewrite Hs, Hn.
  destruct (S3_getObject w _ _ _ _) as [[error result]|].
  - destruct (truthy result || (truthy error
                && strict_eq_str (get error "code") "NoSuchKey")) eqn:Hc.
    + apply orb_true_iff in Hc.
      rewrite andb_true_iff, strict_eq_str_true in Hc.
      split; [| split].
      * intros v. split.
        -- intros [= <-]. eauto.
        -- by intros [-> _].
      * by intros r.
      * by split.
    + apply orb_false_iff in Hc as [Hr Hc].
      split; [| split].
      * intros v. split; [done |].
        intros (_ & error' & result' & [= <- <-] & [Habs | [He Hcode]]).
        -- congruence.
        -- apply strict_eq_str_true in Hcode. by rewrite He, Hcode in Hc.
      * intros r [= <-]. eauto.
      * by split.
  - split; [| split].
    + intros v. split; [done |]. by intros (_ & ? & ? & ? & _).
    + by intros r.
    + by split.
Qed.

Lemma s3TestForImport_resolves_witness :
  hasPermission world0 "core" = true
  ∧ nullish (JObj {[ "bucket" := JStr "old" ]}) = false
  ∧ s3TestForImport world0 pkgs0 = inr (Resolved (JBool true)).
Proof.
  split; [reflexivity |]. split; [reflexivity |].
  apply (proj1 (s3TestForImport_resolves world0 pkgs0
                  (JObj {[ "bucket" := JStr "old" ]}) eq_refl eq_refl eq_refl)
           (JBool true)).
  split; [reflexivity |]. exists noSuchKey, JNull.
  split; [reflexivity |]. right. by split.
Defined.

(** X18: saving then testing uses what was saved.  After
    [updateS3Settings] has gone through on a collection that holds the
    S3 package, both S3 tests put their request with the [accessKey],
    [secretAccessKey] and [bucket] of the [values] just saved, and their
    outcome is read off the answer to that request. *)
Theorem updateS3Settings_then_test
    (w : world) (values : jsval) (pkgs : list obj) (d : obj) :
  validS3Settings values = true →
  hasPermission w "core" = true →
  List.find (name_matches "connector-settings-aws-s3") pkgs = Some d →
  let pkgs' := snd (updateS3Settings w values pkgs) in
  s3TestForExport w pkgs'
  = inr match S3_upload w (get values "accessKey") (get values "secretAccessKey")
                (get values "bucket") "ReactionCSVExport--TestOnly.txt"
                "This is just a sample CSV export file from Reaction." with
        | None => Pending
        | Some (error, result) =>
            if truthy result then Resolved (JBool true) else Rejected (inr error)
        end
  ∧ s3TestForImport w pkgs'
    = inr match S3_getObject w (get values "accessKey") (get values "secretAccessKey")
                  (get values "bucket") "test.txt" with
          | None => Pending
          | Some (error, result) =>
              if truthy result
                 || (truthy error && strict_eq_str (get error "code") "NoSuchKey")
              then Resolved (JBool true)
              else Rejected (inr error)
          end.
Proof.
  intros Hv Hp Hd pkgs'. subst pkgs'.
  rewrite s3TestForExport_cases, s3TestForImport_cases, Hp.
  rewrite updateS3Settings_cases, Hv, Hp.
  unfold Packages_update_settings, Packages_findOne. simpl.
  rewrite find_Collection_set_settings, Hd. simpl.
  assert (prop (<["settings" := EJSON_roundtrip values]> d) "settings"
          = EJSON_roundtrip values) as ->.
  { unfold prop. by rewrite lookup_insert_eq. }
  unfold validS3Settings in Hv.
  repeat (apply andb_prop in Hv as [Hv ?]).
  assert (nullish (EJSON_roundtrip values) = false) as ->.
  { by destruct values. }
  rewrite !EJSON_roundtrip_get by (by rewrite ?H, ?H0, ?H1).
  done.
Qed.

Lemma updateS3Settings_then_test_witness :
  validS3Settings (JObj objS3) = true
  ∧ hasPermission world0 "core" = true
  ∧ List.find (name_matches "connector-settings-aws-s3") pkgs0 = Some pkgS3
  ∧ s3TestForExport world0 (snd (updateS3Settings world0 (JObj objS3) pkgs0))
    = inr (Resolved (JBool true)).
Proof.
  do 3 (split; [reflexivity |]).
  exact (proj1 (updateS3Settings_then_test world0 (JObj objS3) pkgs0 pkgS3
                  eq_refl eq_refl eq_refl)).
Defined.

(** X19: the SFTP test connects with what was saved.  After
    [updateSFTPSettings] has gone through on a collection that holds the
    SFTP package, [sftpTestForImportAndExport] connects to the saved
    [ipAddress] with the saved [username] and [password] and with the
    saved [port] turned into a string; it resolves with [true] if the
    connection is made, and is rejected with the connection's own error
    if not. *)
Theorem updateSFTPSettings_then_test
    (w : world) (values : jsval) (pkgs : list obj) (d : obj) :
  validSFTPSettings values = true →
  hasPermission w "core" = true →
  List.find (name_matches "connector-settings-sftp") pkgs = Some d →
  sftpTestForImportAndExport w (snd (updateSFTPSettings w values pkgs))
  = match sftp_connect w (get values "ipAddress") (toString w (get values "port"))
            (get values "username") (get values "password") with
    | Resolved _ => Resolved (JBool true)
    | Rejected error => Rejected error
    | Pending => Pending
    end.
Proof.
  intros Hv Hp Hd.
  rewrite sftpTestForImportAndExport_cases, Hp.
  rewrite updateSFTPSettings_cases, Hv, Hp.
  unfold Packages_update_settings, Packages_findOne. simpl.
  rewrite find_Collection_set_settings, Hd. simpl.
  assert (prop (<["settings" := EJSON_roundtrip values]> d) "settings"
          = EJSON_roundtrip values) as ->.
  { unfold prop. by rewrite lookup_insert_eq. }
  unfold validSFTPSettings in Hv.
  repeat (apply andb_prop in Hv as [Hv ?]).
  assert (nullish (EJSON_roundtrip values) = false) as ->.
  { by destruct values. }
  by rewrite !EJSON_roundtrip_get by (by rewrite ?H, ?H0, ?H1, ?H2, ?orb_true_r).
Qed.

Lemma updateSFTPSettings_then_test_witness :
  validSFTPSettings (JObj objSFTP) = true
  ∧ hasPermission world0 "core" = true
  ∧ List.find (name_matches "connector-settings-sftp") [pkgOther; pkgSFTP]
    = Some pkgSFTP
  ∧ sftpTestForImportAndExport world0
      (snd (updateSFTPSettings world0 (JObj objSFTP) [pkgOther; pkgSFTP]))
    = Resolved (JBool true).
Proof.
  do 3 (split; [reflexivity |]).
  exact (updateSFTPSettings_then_test world0 (JObj objSFTP) [pkgOther; pkgSFTP]
           pkgSFTP eq_refl eq_refl eq_refl).
Defined.

Lemma Collection_set_settings_twice (name : string) (v1 v2 : jsval) (pkgs : list obj) :
  snd (Collection_set_settings name v2 (snd (Collection_set_settings name v1 pkgs)))
  = snd (Collection_set_settings name v2 pkgs).
Proof.
  induction pkgs as [|d rest IH]; simpl; [done |].
  destruct (name_matches name d) eqn:Hd; simpl.
  - by rewrite name_matches_set_settings, Hd, insert_insert_eq.
  - by rewrite Hd, IH.
Qed.

(** X20: the last save wins.  Two calls of [updateS3Settings] in a row
    that both go through leave [Packages] as the second call alone
    would have: the settings saved first are replaced as a whole, not
    merged with the later ones. *)
Theorem updateS3Settings_last_wins (w : world) (values1 values2 : jsval) (pkgs : list obj) :
  validS3Settings values1 = true →
  validS3Settings values2 = true →
  hasPermission w "core" = true →
  snd (updateS3Settings w values2 (snd (updateS3Settings w values1 pkgs)))
  = snd (updateS3Settings w values2 pkgs).
Proof.
  intros H1 H2 Hp. rewrite !updateS3Settings_cases, H1, H2, Hp.
  unfold Packages_update_settings. simpl.
  apply Collection_set_settings_twice.
Qed.

Lemma updateS3Settings_last_wins_witness :
  validS3Settings (JObj (<["region" := JStr "eu"]> objS3)) = true
  ∧ snd (updateS3Settings world0 (JObj objS3)
           (snd (updateS3Settings world0 (JObj (<["region" := JStr "eu"]> objS3)) pkgs0)))
    = snd (updateS3Settings world0 (JObj objS3) pkgs0).
Proof.
  split; [reflexivity |].
  exact (updateS3Settings_last_wins world0 (JObj (<["region" := JStr "eu"]> objS3))
           (JObj objS3) pkgs0 eq_refl eq_refl eq_refl).
Defined.
